(** * MCMCSampleCollection (mcmc.py): a shallow embedding and its properties

    The collection stores "sample tuples" (sample index, variable index,
    variable value) in an append-only list, together with a registry of
    variable names.  Python integers are modelled by [Z], Python floats and
    numpy float64 cells by primitive floats, dictionaries by [gmap], lists by
    [list].  Methods that mutate [self] are state-passing functions that
    return the raised exception or the returned value together with the
    collection as the call leaves it; read-only methods return only the
    exception or the value. *)

From Stdlib Require Import ZArith Lia List Sorted.
From Stdlib Require Import Floats.
From stdpp Require Import base decidable option list numbers strings gmap.

Local Open Scope Z_scope.

(** ** Exceptions and results *)

(** The two messages passed to [sys.exit]. *)
Inductive exit_message : Type :=
  | InitAfterSamplingBegun
  | CannotFindSampleIndex (desired_sample_ind num_samples : Z).

Inductive exn : Type :=
  | SystemExit (msg : exit_message)
  | AssertionError
  | KeyError
  | IndexError
  | ValueError.

Inductive result (A : Type) : Type :=
  | Ok (a : A)
  | Raise (e : exn).
Arguments Ok {A} a.
Arguments Raise {A} e.

#[global] Instance result_ret : MRet result := fun A a => Ok a.
#[global] Instance result_bind : MBind result := fun A B f r =>
  match r with
  | Ok a => f a
  | Raise e => Raise e
  end.

(** ** The collection *)

Definition sample_tuple : Type := Z * Z * float.

Definition sample_ind_of (t : sample_tuple) : Z := t.1.1.
Definition var_ind_of (t : sample_tuple) : Z := t.1.2.
Definition value_of (t : sample_tuple) : float := t.2.

Record MCMCSampleCollection : Type := mkCollection {
  num_vars : Z;
  var_index_given_name : gmap string Z;
  var_name_given_index : gmap Z string;
  num_samples : Z;
  sample_tuples : list sample_tuple
}.

(** [__init__] *)
Definition init : MCMCSampleCollection :=
  {| num_vars := 0;
     var_index_given_name := ∅;
     var_name_given_index := ∅;
     num_samples := 1;
     sample_tuples := [] |}.

Definition set_num_vars (n : Z) (self : MCMCSampleCollection) :=
  mkCollection n (var_index_given_name self) (var_name_given_index self)
               (num_samples self) (sample_tuples self).
Definition set_var_index_given_name (m : gmap string Z) (self : MCMCSampleCollection) :=
  mkCollection (num_vars self) m (var_name_given_index self)
               (num_samples self) (sample_tuples self).
Definition set_var_name_given_index (m : gmap Z string) (self : MCMCSampleCollection) :=
  mkCollection (num_vars self) (var_index_given_name self) m
               (num_samples self) (sample_tuples self).
Definition set_num_samples (n : Z) (self : MCMCSampleCollection) :=
  mkCollection (num_vars self) (var_index_given_name self) (var_name_given_index self)
               n (sample_tuples self).
Definition set_sample_tuples (l : list sample_tuple) (self : MCMCSampleCollection) :=
  mkCollection (num_vars self) (var_index_given_name self) (var_name_given_index self)
               (num_samples self) l.

(** ** Methods that mutate [self] *)

(** A method call maps the collection to its outcome and the collection as
    the call leaves it (also when it raises). *)
Definition method (A : Type) : Type :=
  MCMCSampleCollection -> result A * MCMCSampleCollection.

#[global] Instance method_ret : MRet method := fun A a self => (Ok a, self).
#[global] Instance method_bind : MBind method := fun A B f m self =>
  match m self with
  | (Ok a, self') => f a self'
  | (Raise e, self') => (Raise e, self')
  end.

Definition get : method MCMCSampleCollection := fun self => (Ok self, self).
Definition modify (f : MCMCSampleCollection -> MCMCSampleCollection) : method unit :=
  fun self => (Ok tt, f self).
Definition raise {A : Type} (e : exn) : method A := fun self => (Raise e, self).
Definition sys_exit {A : Type} (msg : exit_message) : method A := raise (SystemExit msg).

(** [self.var_index_given_name[var_name]] *)
Definition dict_getitem `{Countable K} {V : Type} (d : gmap K V) (k : K) : result V :=
  match d !! k with
  | Some v => Ok v
  | None => Raise KeyError
  end.

Definition lift {A : Type} (r : result A) : method A := fun self => (r, self).

Definition add_sample_by_index (var_ind : Z) (value : float)
    (same_sample_as_prev : bool) : method unit :=
  (if negb same_sample_as_prev
   then modify (fun self => set_num_samples (num_samples self + 1) self)
   else mret tt) ;;
  self ← get;
  let sample_ind := num_samples self - 1 in
  modify (fun self =>
    set_sample_tuples (sample_tuples self ++ [(sample_ind, var_ind, value)]) self).

Definition init_var (var_name : string) (value : float) : method unit :=
  self ← get;
  if bool_decide (num_samples self > 1)
  then sys_exit InitAfterSamplingBegun
  else
    let var_ind := num_vars self in
    modify (fun self =>
      set_var_index_given_name (<[var_name := var_ind]> (var_index_given_name self)) self) ;;
    modify (fun self =>
      set_var_name_given_index (<[var_ind := var_name]> (var_name_given_index self)) self) ;;
    add_sample_by_index var_ind value true ;;
    modify (fun self => set_num_vars (num_vars self + 1) self).

Definition add_sample_by_name (var_name : string) (value : float)
    (same_sample_as_prev : bool) : method unit :=
  self ← get;
  var_ind ← lift (dict_getitem (var_index_given_name self) var_name);
  add_sample_by_index var_ind value same_sample_as_prev.

(** ** Python values compared by [==]

    The linear scan of the locator compares an element of [sample_tuples]
    with the requested index; the element is a 3-tuple and the index an
    [int].  Only the objects that occur there are modelled. *)

#[warnings="-register-all"]
Inductive pyobj : Type :=
  | PyInt (z : Z)
  | PyFloat (f : float)
  | PyTuple (items : list pyobj).

(** [float == int] compares the exact values. *)
Definition float_eq_int (f : float) (z : Z) : bool :=
  match Prim2SF f with
  | S754_zero _ => bool_decide (z = 0)
  | S754_finite s m e =>
      let v := if s then Z.neg m else Z.pos m in
      if bool_decide (0 <= e) then bool_decide (z = v * 2 ^ e)
      else bool_decide (z * 2 ^ (- e) = v)
  | _ => false
  end.

Fixpoint py_eq (a b : pyobj) {struct a} : bool :=
  match a, b with
  | PyInt x, PyInt y => bool_decide (x = y)
  | PyFloat x, PyFloat y => PrimFloat.eqb x y
  | PyInt x, PyFloat y => float_eq_int y x
  | PyFloat x, PyInt y => float_eq_int x y
  | PyTuple xs, PyTuple ys =>
      (fix items_eq (xs ys : list pyobj) {struct xs} : bool :=
         match xs, ys with
         | [], [] => true
         | x :: xs', y :: ys' => py_eq x y && items_eq xs' ys'
         | _, _ => false
         end) xs ys
  | _, _ => false
  end.

Definition tuple_obj (t : sample_tuple) : pyobj :=
  PyTuple [PyInt (sample_ind_of t); PyInt (var_ind_of t); PyFloat (value_of t)].

(** ** Indexing *)

(** [l[i]] on a Python list: a negative index counts from the end. *)
Definition list_getitem {A : Type} (l : list A) (i : Z) : result A :=
  let n := Z.of_nat (length l) in
  let j := if bool_decide (i < 0) then i + n else i in
  if bool_decide (0 <= j < n)
  then match l !! Z.to_nat j with
       | Some x => Ok x
       | None => Raise IndexError
       end
  else Raise IndexError.

(** [l.index(x)]: the first position of [x], or [ValueError]. *)
Fixpoint list_index (l : list Z) (x : Z) : result Z :=
  match l with
  | [] => Raise ValueError
  | y :: l' =>
      if bool_decide (y = x) then Ok 0
      else i ← list_index l' x; Ok (i + 1)
  end.

(** numpy arrays of float64: a vector is a list, a matrix a list of rows. *)
Definition np_zeros1 (n : Z) : result (list float) :=
  if bool_decide (n < 0) then Raise ValueError
  else Ok (replicate (Z.to_nat n) 0%float).

Definition np_zeros2 (shape : Z * Z) : result (list (list float)) :=
  if bool_decide (shape.1 < 0) then Raise ValueError
  else row ← np_zeros1 shape.2; Ok (replicate (Z.to_nat shape.1) row).

(** [a[i] = x] along the first axis of an array. *)
Definition np_setitem {A : Type} (a : list A) (i : Z) (x : A) : result (list A) :=
  let n := Z.of_nat (length a) in
  let j := if bool_decide (i < 0) then i + n else i in
  if bool_decide (0 <= j < n) then Ok (<[Z.to_nat j := x]> a)
  else Raise IndexError.

(** ** The locator *)

(** [for i, sample_ind in enumerate(self.sample_tuples)]: the loop variable
    [sample_ind] is bound to the whole tuple. *)
Fixpoint linear_scan (desired_sample_ind : Z) (i : Z) (tuples : list sample_tuple)
    : option Z :=
  match tuples with
  | [] => None
  | sample_ind :: rest =>
      if py_eq (tuple_obj sample_ind) (PyInt desired_sample_ind) then Some i
      else linear_scan desired_sample_ind (i + 1) rest
  end.

(** One pass through the body of the [while True] loop. *)
Inductive iteration : Type :=
  | Return (test_ind : Z)
  | Fail (e : exn)
  | Next (lower_bound upper_bound : Z).

Definition check_bounds (lower_bound upper_bound : Z) : iteration :=
  if bool_decide (lower_bound + 1 < upper_bound) then Next lower_bound upper_bound
  else Fail AssertionError.

(** [test_ind = (upper_bound + lower_bound)/2] is the floor division of
    Python 2 integers. *)
Definition bsearch_body (tuples : list sample_tuple) (desired_sample_ind : Z)
    (lower_bound upper_bound : Z) : iteration :=
  let test_ind := (upper_bound + lower_bound) `div` 2 in
  match list_getitem tuples (test_ind - 1) with
  | Raise e => Fail e
  | Ok before =>
      if bool_decide (sample_ind_of before >= desired_sample_ind)
      then check_bounds lower_bound test_ind
      else match list_getitem tuples test_ind with
           | Raise e => Fail e
           | Ok here =>
               if bool_decide (sample_ind_of here < desired_sample_ind)
               then check_bounds test_ind upper_bound
               else Return test_ind
           end
  end.

(** The loop, bounded by a number of iterations; [None] when they run out. *)
Fixpoint bsearch_loop (fuel : nat) (tuples : list sample_tuple) (desired_sample_ind : Z)
    (lower_bound upper_bound : Z) : option (result Z) :=
  match fuel with
  | O => None
  | S fuel' =>
      match bsearch_body tuples desired_sample_ind lower_bound upper_bound with
      | Return test_ind => Some (Ok test_ind)
      | Fail e => Some (Raise e)
      | Next lower_bound' upper_bound' =>
          bsearch_loop fuel' tuples desired_sample_ind lower_bound' upper_bound'
      end
  end.

Definition first_tuple_index_of_desired_sample_index (self : MCMCSampleCollection)
    (desired_sample_ind : Z) : option (result Z) :=
  if negb (bool_decide (desired_sample_ind <= num_samples self - 1))
  then Some (Raise AssertionError)
  else if bool_decide (desired_sample_ind <= 10)
  then match linear_scan desired_sample_ind 0 (sample_tuples self) with
       | Some i => Some (Ok i)
       | None => Some (Raise (SystemExit
                   (CannotFindSampleIndex desired_sample_ind (num_samples self))))
       end
  else bsearch_loop (S (length (sample_tuples self))) (sample_tuples self)
         desired_sample_ind 0 (Z.of_nat (length (sample_tuples self))).

(** ** The materializer *)

Fixpoint full_posterior_samples_loop (starting_sample_ind ending_sample_ind : Z)
    (tuples : list sample_tuple) (posterior_samples : list (list float))
    (current_sample_ind : Z) (current_sample : list float)
    : result (list (list float)) :=
  match tuples with
  | [] => Ok posterior_samples
  | (sample_ind, var_ind, value) :: rest =>
      if bool_decide (current_sample_ind ≠ sample_ind) then
        if bool_decide (current_sample_ind > sample_ind) then
          posterior_samples' ←
            (if bool_decide (current_sample_ind >= starting_sample_ind)
             then np_setitem posterior_samples
                    (current_sample_ind - starting_sample_ind) current_sample
             else Ok posterior_samples);
          if bool_decide (sample_ind >= ending_sample_ind) then Ok posterior_samples'
          else
            current_sample' ← np_setitem current_sample var_ind value;
            full_posterior_samples_loop starting_sample_ind ending_sample_ind rest
              posterior_samples' sample_ind current_sample'
        else Raise AssertionError
      else
        current_sample' ← np_setitem current_sample var_ind value;
        full_posterior_samples_loop starting_sample_ind ending_sample_ind rest
          posterior_samples current_sample_ind current_sample'
  end.

Definition full_posterior_samples (self : MCMCSampleCollection)
    (starting_sample_ind : Z) (ending_sample_ind : option Z)
    : result (list (list float)) :=
  let ending_sample_ind := default (num_samples self) ending_sample_ind in
  posterior_samples ←
    np_zeros2 (ending_sample_ind - starting_sample_ind, num_vars self);
  current_sample ← np_zeros1 (num_vars self);
  full_posterior_samples_loop starting_sample_ind ending_sample_ind
    (sample_tuples self) posterior_samples 0 current_sample.

Fixpoint marginal_posterior_samples_by_index_loop (marg_var_inds : list Z)
    (starting_sample_ind ending_sample_ind : Z)
    (tuples : list sample_tuple) (posterior_samples : list (list float))
    (current_sample_ind : Z) (current_sample : list float)
    : result (list (list float)) :=
  match tuples with
  | [] => Ok posterior_samples
  | (sample_ind, var_ind, value) :: rest =>
      if bool_decide (current_sample_ind ≠ sample_ind) then
        if bool_decide (current_sample_ind > sample_ind) then
          posterior_samples' ←
            (if bool_decide (current_sample_ind >= starting_sample_ind)
             then np_setitem posterior_samples
                    (current_sample_ind - starting_sample_ind) current_sample
             else Ok posterior_samples);
          if bool_decide (sample_ind >= ending_sample_ind) then Ok posterior_samples'
          else
            k ← list_index marg_var_inds var_ind;
            current_sample' ← np_setitem current_sample k value;
            marginal_posterior_samples_by_index_loop marg_var_inds
              starting_sample_ind ending_sample_ind rest
              posterior_samples' sample_ind current_sample'
        else Raise AssertionError
      else
        k ← list_index marg_var_inds var_ind;
        current_sample' ← np_setitem current_sample k value;
        marginal_posterior_samples_by_index_loop marg_var_inds
          starting_sample_ind ending_sample_ind rest
          posterior_samples current_sample_ind current_sample'
  end.

Definition marginal_posterior_samples_by_index (self : MCMCSampleCollection)
    (marg_var_inds : list Z) (starting_sample_ind : Z) (ending_sample_ind : option Z)
    : result (list (list float)) :=
  let ending_sample_ind := default (num_samples self) ending_sample_ind in
  let n := Z.of_nat (length marg_var_inds) in
  posterior_samples ← np_zeros2 (ending_sample_ind - starting_sample_ind, n);
  current_sample ← np_zeros1 n;
  marginal_posterior_samples_by_index_loop marg_var_inds
    starting_sample_ind ending_sample_ind
    (sample_tuples self) posterior_samples 0 current_sample.

(** The method has no [return] statement: a call that raises nothing
    evaluates to Python's [None], written [None] here; the range it is given
    is not the one it passes on. *)
Definition marginal_posterior_samples_by_name (self : MCMCSampleCollection)
    (marg_var_names : list string) (starting_sample_ind : Z)
    (ending_sample_ind : option Z) : result (option (list (list float))) :=
  let ending_sample_ind := default (num_samples self) ending_sample_ind in
  marg_var_inds ← mapM (dict_getitem (var_index_given_name self)) marg_var_names;
  _ ← marginal_posterior_samples_by_index self marg_var_inds 0 (Some (num_samples self));
  Ok None.

(** ** Collections built through the interface *)

Inductive call : Type :=
  | InitVar (var_name : string) (value : float)
  | AddSampleByIndex (var_ind : Z) (value : float) (same_sample_as_prev : bool)
  | AddSampleByName (var_name : string) (value : float) (same_sample_as_prev : bool).

Definition run_call (c : call) : method unit :=
  match c with
  | InitVar var_name value => init_var var_name value
  | AddSampleByIndex var_ind value same => add_sample_by_index var_ind value same
  | AddSampleByName var_name value same => add_sample_by_name var_name value same
  end.

(** The collection after a sequence of calls on a fresh one; a call that
    raises leaves the collection as it left it and the next call goes on. *)
Definition after_calls (calls : list call) : MCMCSampleCollection :=
  fold_left (fun self c => (run_call c self).2) calls init.

(** ** Predicates and inputs used in the statements *)

(** How the counter and the log grow together: every record either continues
    the sample opened last or opens the next one. *)
Inductive log_ok : Z -> list sample_tuple -> Prop :=
  | log_ok_init : log_ok 1 []
  | log_ok_continue n l var_ind value :
      log_ok n l -> log_ok n (l ++ [(n - 1, var_ind, value)])
  | log_ok_new n l var_ind value :
      log_ok n l -> log_ok (n + 1) (l ++ [(n, var_ind, value)]).

(** The indices handed out so far are exactly [0 .. num_vars - 1], and a
    registered name leads back to itself through its index. *)
Definition registry_ok (self : MCMCSampleCollection) : Prop :=
  0 <= num_vars self
  /\ (forall i, is_Some (var_name_given_index self !! i) <-> 0 <= i < num_vars self)
  /\ (forall name i, var_index_given_name self !! name = Some i ->
        var_name_given_index self !! i = Some name).

(** The reference scan: the position of the first record whose sample index
    is the requested one. *)
Fixpoint reference_scan (desired_sample_ind : Z) (i : Z) (tuples : list sample_tuple)
    : option Z :=
  match tuples with
  | [] => None
  | t :: rest =>
      if bool_decide (sample_ind_of t = desired_sample_ind) then Some i
      else reference_scan desired_sample_ind (i + 1) rest
  end.

(** The sample indices never decrease along the log. *)
Definition monotone (tuples : list sample_tuple) : Prop :=
  forall i j a b, (i <= j)%nat -> tuples !! i = Some a -> tuples !! j = Some b ->
    sample_ind_of a <= sample_ind_of b.

(** The same, decided on the list of sample indices. *)
Fixpoint non_decreasing (l : list Z) : bool :=
  match l with
  | a :: (b :: _) as rest => bool_decide (a <= b) && non_decreasing rest
  | _ => true
  end.

(** The scenario of the specification: x = 1.0 and y = 2.0 are registered,
    sample 1 writes x = 3.0 and y = 2.0, sample 2 writes x = 3.0 only. *)
Definition scenario : list call :=
  [ InitVar "x" 1.0%float; InitVar "y" 2.0%float;
    AddSampleByName "x" 3.0%float false; AddSampleByName "y" 2.0%float true;
    AddSampleByName "x" 3.0%float false ].

(** Two registered variables and no further sample. *)
Definition two_variables : list call :=
  [InitVar "x" 1.0%float; InitVar "y" 2.0%float].

(** One variable and eleven further samples, one record each. *)
Definition twelve_samples : list call :=
  InitVar "x" 1.0%float :: replicate 11 (AddSampleByIndex 0 2.0%float false).

(** * Properties *)

(** ** The mutating methods, unfolded *)

Lemma add_sample_by_index_new (var_ind : Z) (value : float) (self : MCMCSampleCollection) :
  add_sample_by_index var_ind value false self
  = (Ok tt, mkCollection (num_vars self) (var_index_given_name self)
              (var_name_given_index self) (num_samples self + 1)
              (sample_tuples self ++ [(num_samples self + 1 - 1, var_ind, value)])).
Proof. reflexivity. Qed.

Lemma add_sample_by_index_continue (var_ind : Z) (value : float)
    (self : MCMCSampleCollection) :
  add_sample_by_index var_ind value true self
  = (Ok tt, mkCollection (num_vars self) (var_index_given_name self)
              (var_name_given_index self) (num_samples self)
              (sample_tuples self ++ [(num_samples self - 1, var_ind, value)])).
Proof. reflexivity. Qed.

Lemma init_var_closed (var_name : string) (value : float) (self : MCMCSampleCollection) :
  num_samples self > 1 ->
  init_var var_name value self = (Raise (SystemExit InitAfterSamplingBegun), self).
Proof.
  intros Hn. unfold init_var, mbind, method_bind, get.
  rewrite bool_decide_eq_true_2 by exact Hn. reflexivity.
Qed.

Lemma init_var_open (var_name : string) (value : float) (self : MCMCSampleCollection) :
  num_samples self <= 1 ->
  init_var var_name value self
  = (Ok tt, mkCollection (num_vars self + 1)
              (<[var_name := num_vars self]> (var_index_given_name self))
              (<[num_vars self := var_name]> (var_name_given_index self))
              (num_samples self)
              (sample_tuples self ++ [(num_samples self - 1, num_vars self, value)])).
Proof.
  intros Hn. unfold init_var, mbind, method_bind, get.
  rewrite bool_decide_eq_false_2 by lia. reflexivity.
Qed.

Lemma add_sample_by_name_known (var_name : string) (var_ind : Z) (value : float)
    (same : bool) (self : MCMCSampleCollection) :
  var_index_given_name self !! var_name = Some var_ind ->
  add_sample_by_name var_name value same self
  = add_sample_by_index var_ind value same self.
Proof.
  intros Hk. unfold add_sample_by_name, mbind, method_bind, get, lift, dict_getitem.
  rewrite Hk. reflexivity.
Qed.

Lemma add_sample_by_name_unknown (var_name : string) (value : float)
    (same : bool) (self : MCMCSampleCollection) :
  var_index_given_name self !! var_name = None ->
  add_sample_by_name var_name value same self = (Raise KeyError, self).
Proof.
  intros Hk. unfold add_sample_by_name, mbind, method_bind, get, lift, dict_getitem.
  rewrite Hk. reflexivity.
Qed.

Lemma after_calls_snoc (calls : list call) (c : call) :
  after_calls (calls ++ [c]) = (run_call c (after_calls calls)).2.
Proof. unfold after_calls. rewrite fold_left_app. reflexivity. Qed.

(** ** The shape of the log *)

Lemma run_call_log_ok (c : call) (self : MCMCSampleCollection) :
  log_ok (num_samples self) (sample_tuples self) ->
  log_ok (num_samples (run_call c self).2) (sample_tuples (run_call c self).2).
Proof.
  intros Hok. destruct c as [name v | i v same | name v same]; simpl.
  - destruct (Z_le_gt_dec (num_samples self) 1) as [Hle | Hgt].
    + rewrite init_var_open by exact Hle. simpl. by constructor.
    + rewrite init_var_closed by exact Hgt. exact Hok.
  - destruct same.
    + rewrite add_sample_by_index_continue. simpl. by constructor.
    + rewrite add_sample_by_index_new. simpl.
      replace (num_samples self + 1 - 1) with (num_samples self) by lia.
      by constructor.
  - destruct (var_index_given_name self !! name) as [i |] eqn:Hk.
    + rewrite (add_sample_by_name_known _ i) by exact Hk. destruct same.
      * rewrite add_sample_by_index_continue. simpl. by constructor.
      * rewrite add_sample_by_index_new. simpl.
        replace (num_samples self + 1 - 1) with (num_samples self) by lia.
        by constructor.
    + rewrite add_sample_by_name_unknown by exact Hk. exact Hok.
Qed.

Lemma after_calls_log_ok (calls : list call) :
  log_ok (num_samples (after_calls calls)) (sample_tuples (after_calls calls)).
Proof.
  induction calls as [| c calls IH] using rev_ind.
  - constructor.
  - rewrite after_calls_snoc. by apply run_call_log_ok.
Qed.

Lemma log_ok_counter n l : log_ok n l -> 1 <= n.
Proof. induction 1; lia. Qed.

Lemma log_ok_range n l i t :
  log_ok n l -> l !! i = Some t -> 0 <= sample_ind_of t <= n - 1.
Proof.
  intros Hok. revert i t. induction Hok as [| n l v x Hok IH | n l v x Hok IH];
    intros i t Hi.
  - by rewrite lookup_nil in Hi.
  - pose proof (log_ok_counter _ _ Hok).
    apply lookup_snoc_Some in Hi as [[_ Hi] | [_ <-]]; [eauto | unfold sample_ind_of; simpl; lia].
  - pose proof (log_ok_counter _ _ Hok).
    apply lookup_snoc_Some in Hi as [[_ Hi] | [_ <-]]; [| unfold sample_ind_of; simpl; lia].
    specialize (IH _ _ Hi). lia.
Qed.

Lemma log_ok_last n l t :
  log_ok n l -> last l = Some t -> sample_ind_of t = n - 1.
Proof.
  intros Hok. destruct Hok; intros Hl.
  - discriminate.
  - rewrite last_snoc in Hl. by inversion Hl.
  - rewrite last_snoc in Hl. inversion Hl. unfold sample_ind_of. simpl. lia.
Qed.

Lemma log_ok_monotone n l i j a b :
  log_ok n l -> (i <= j)%nat -> l !! i = Some a -> l !! j = Some b ->
  sample_ind_of a <= sample_ind_of b.
Proof.
  intros Hok. revert i j a b.
  induction Hok as [| n l v x Hok IH | n l v x Hok IH]; intros i j a b Hij Hi Hj.
  - by rewrite lookup_nil in Hi.
  - apply lookup_snoc_Some in Hj as [[Hjl Hj] | [Hjl <-]].
    + rewrite lookup_app_l in Hi by lia. eauto.
    + apply lookup_snoc_Some in Hi as [[_ Hi] | [_ <-]]; [| lia].
      pose proof (log_ok_range _ _ _ _ Hok Hi). unfold sample_ind_of at 2. simpl. lia.
  - apply lookup_snoc_Some in Hj as [[Hjl Hj] | [Hjl <-]].
    + rewrite lookup_app_l in Hi by lia. eauto.
    + apply lookup_snoc_Some in Hi as [[_ Hi] | [_ <-]]; [| lia].
      pose proof (log_ok_range _ _ _ _ Hok Hi). unfold sample_ind_of at 2. simpl. lia.
Qed.

Lemma log_ok_adjacent n l i a b :
  log_ok n l -> l !! i = Some a -> l !! S i = Some b ->
  sample_ind_of b = sample_ind_of a \/ sample_ind_of b = sample_ind_of a + 1.
Proof.
  intros Hok. revert i a b.
  induction Hok as [| n l v x Hok IH | n l v x Hok IH]; intros i a b Hi Hj.
  - by rewrite lookup_nil in Hi.
  - apply lookup_snoc_Some in Hj as [[Hjl Hj] | [Hjl <-]].
    + rewrite lookup_app_l in Hi by lia. eauto.
    + rewrite lookup_app_l in Hi by lia.
      assert (last l = Some a) as Hl by (rewrite last_lookup, <- Hjl; exact Hi).
      rewrite (log_ok_last _ _ _ Hok Hl). left. reflexivity.
  - apply lookup_snoc_Some in Hj as [[Hjl Hj] | [Hjl <-]].
    + rewrite lookup_app_l in Hi by lia. eauto.
    + rewrite lookup_app_l in Hi by lia.
      assert (last l = Some a) as Hl by (rewrite last_lookup, <- Hjl; exact Hi).
      rewrite (log_ok_last _ _ _ Hok Hl). right. unfold sample_ind_of. simpl. lia.
Qed.

Lemma log_ok_present n l k :
  log_ok n l -> 1 <= k <= n - 1 ->
  exists i t, l !! i = Some t /\ sample_ind_of t = k.
Proof.
  intros Hok. revert k.
  induction Hok as [| n l v x Hok IH | n l v x Hok IH]; intros k Hk.
  - lia.
  - destruct (IH k Hk) as (i & t & Hi & Ht).
    exists i, t. split; [| exact Ht]. apply lookup_app_l_Some. exact Hi.
  - destruct (decide (k = n)) as [-> | Hne].
    + exists (length l), (n, v, x). split; [| reflexivity].
      rewrite lookup_app_r by lia. by rewrite Nat.sub_diag.
    + destruct (IH k ltac:(lia)) as (i & t & Hi & Ht).
      exists i, t. split; [| exact Ht]. apply lookup_app_l_Some. exact Hi.
Qed.

(** ** The registry *)

Lemma run_call_registry_ok (c : call) (self : MCMCSampleCollection) :
  registry_ok self -> registry_ok (run_call c self).2.
Proof.
  intros (Hn & Hdom & Hback).
  assert (forall i v b, registry_ok (add_sample_by_index i v b self).2) as Hadd.
  { intros i v b. destruct b;
      [rewrite add_sample_by_index_continue | rewrite add_sample_by_index_new];
      exact (conj Hn (conj Hdom Hback)). }
  destruct c as [name v | i v same | name v same]; simpl.
  - destruct (Z_le_gt_dec (num_samples self) 1) as [Hle | Hgt].
    2: { rewrite init_var_closed by exact Hgt. exact (conj Hn (conj Hdom Hback)). }
    rewrite init_var_open by exact Hle. unfold registry_ok. simpl.
    split; [lia |]. split.
    + intros i. rewrite lookup_insert. case_decide as Hi.
      * subst i. split; [lia | eauto].
      * rewrite Hdom. lia.
    + intros name' i. rewrite !lookup_insert. case_decide as Hname.
      * intros [= <-]. subst name'. by rewrite decide_True.
      * intros Hi. pose proof (Hback _ _ Hi) as Hb.
        assert (0 <= i < num_vars self) by (apply Hdom; eauto).
        by rewrite decide_False by lia.
  - apply Hadd.
  - destruct (var_index_given_name self !! name) as [i |] eqn:Hk.
    + rewrite (add_sample_by_name_known _ i) by exact Hk. apply Hadd.
    + rewrite add_sample_by_name_unknown by exact Hk. exact (conj Hn (conj Hdom Hback)).
Qed.

Lemma after_calls_registry_ok (calls : list call) : registry_ok (after_calls calls).
Proof.
  induction calls as [| c calls IH] using rev_ind.
  - split; [done |]. split.
    + intros i. simpl. rewrite lookup_empty. split; [by intros [? ?] | lia].
    + intros name i. simpl. by rewrite lookup_empty.
  - rewrite after_calls_snoc. by apply run_call_registry_ok.
Qed.

(** A name that no [init_var] call carried is not a key of the dictionary. *)
Lemma never_registered_lookup (calls : list call) (var_name : string) :
  (forall value, ~ In (InitVar var_name value) calls) ->
  var_index_given_name (after_calls calls) !! var_name = None.
Proof.
  induction calls as [| c calls IH] using rev_ind; intros Hnot.
  - apply lookup_empty.
  - rewrite after_calls_snoc.
    assert (var_index_given_name (after_calls calls) !! var_name = None) as Hprev.
    { apply IH. intros v Hin. apply (Hnot v), in_or_app. by left. }
    assert (forall i v b,
      var_index_given_name (add_sample_by_index i v b (after_calls calls)).2
      = var_index_given_name (after_calls calls)) as Hadd by (by intros i v []).
    destruct c as [name v | i v same | name v same]; simpl.
    + destruct (Z_le_gt_dec (num_samples (after_calls calls)) 1) as [Hle | Hgt].
      * rewrite init_var_open by exact Hle. simpl.
        rewrite lookup_insert_ne; [exact Hprev |].
        intros ->. apply (Hnot v), in_or_app. right. by left.
      * rewrite init_var_closed by exact Hgt. exact Hprev.
    + by rewrite Hadd.
    + destruct (var_index_given_name (after_calls calls) !! name) as [i |] eqn:Hk.
      * rewrite (add_sample_by_name_known _ i) by exact Hk. by rewrite Hadd.
      * rewrite add_sample_by_name_unknown by exact Hk. exact Hprev.
Qed.

(** ** Registration (init_var) *)

(** C5. [init_var] exits exactly when a sample beyond index 0 has been opened
    ([num_samples > 1]), and then leaves the collection as it was; otherwise
    it returns normally, gives the variable the index [num_vars], stores the
    pair in both dictionaries, logs the initial value in the current sample
    and increments [num_vars].  On a collection built through the interface
    the index [num_vars] is the next free one: the indices in use are exactly
    [0 .. num_vars - 1]. *)
Theorem init_var_registration_closure :
  (forall (self : MCMCSampleCollection) (var_name : string) (value : float),
      ((init_var var_name value self).1 = Raise (SystemExit InitAfterSamplingBegun)
       <-> num_samples self > 1)
      /\ (num_samples self > 1 ->
          init_var var_name value self
          = (Raise (SystemExit InitAfterSamplingBegun), self))
      /\ (~ num_samples self > 1 ->
          exists self',
            init_var var_name value self = (Ok tt, self')
            /\ var_index_given_name self' !! var_name = Some (num_vars self)
            /\ var_name_given_index self' !! num_vars self = Some var_name
            /\ (forall name, name <> var_name ->
                  var_index_given_name self' !! name = var_index_given_name self !! name)
            /\ (forall i, i <> num_vars self ->
                  var_name_given_index self' !! i = var_name_given_index self !! i)
            /\ num_vars self' = num_vars self + 1
            /\ num_samples self' = num_samples self
            /\ sample_tuples self'
               = sample_tuples self ++ [(num_samples self - 1, num_vars self, value)]))
  /\ (forall calls : list call,
        var_name_given_index (after_calls calls) !! num_vars (after_calls calls) = None
        /\ (forall i, is_Some (var_name_given_index (after_calls calls) !! i)
                      <-> 0 <= i < num_vars (after_calls calls))).
Proof.
  split.
  - intros self var_name value. split; [| split].
    + destruct (Z_le_gt_dec (num_samples self) 1) as [Hle | Hgt].
      * rewrite init_var_open by exact Hle. simpl. split; [discriminate | lia].
      * rewrite init_var_closed by exact Hgt. done.
    + apply init_var_closed.
    + intros Hle. eexists. split; [apply init_var_open; lia |]. simpl.
      repeat split.
      * apply lookup_insert_eq.
      * apply lookup_insert_eq.
      * intros name Hne. by apply lookup_insert_ne.
      * intros i Hne. by apply lookup_insert_ne.
  - intros calls. destruct (after_calls_registry_ok calls) as (Hn & Hdom & _).
    split; [| exact Hdom].
    apply eq_None_not_Some. rewrite Hdom. lia.
Qed.

(** ** Appending (add_sample_by_index) *)

(** C6. With [same_sample_as_prev] false the counter grows by one and the
    record appended carries the new counter minus one; with it true the
    record carries [num_samples - 1] and the counter stays.  Hence, on every
    collection built through the interface, the sample indices of the log
    never decrease along the log, consecutive records carry equal indices or
    indices that differ by one, every index lies in [0 .. num_samples - 1],
    the last record carries [num_samples - 1], and every index from 1 to
    [num_samples - 1] has a record. *)
Theorem add_sample_by_index_append_semantics :
  (forall (self : MCMCSampleCollection) (var_ind : Z) (value : float),
      let out := add_sample_by_index var_ind value false self in
      out.1 = Ok tt
      /\ num_samples out.2 = num_samples self + 1
      /\ sample_tuples out.2
         = sample_tuples self ++ [(num_samples out.2 - 1, var_ind, value)]
      /\ num_vars out.2 = num_vars self
      /\ var_index_given_name out.2 = var_index_given_name self
      /\ var_name_given_index out.2 = var_name_given_index self)
  /\ (forall (self : MCMCSampleCollection) (var_ind : Z) (value : float),
      let out := add_sample_by_index var_ind value true self in
      out.1 = Ok tt
      /\ num_samples out.2 = num_samples self
      /\ sample_tuples out.2
         = sample_tuples self ++ [(num_samples self - 1, var_ind, value)]
      /\ num_vars out.2 = num_vars self
      /\ var_index_given_name out.2 = var_index_given_name self
      /\ var_name_given_index out.2 = var_name_given_index self)
  /\ (forall calls : list call,
      let self := after_calls calls in
      (forall i j a b, (i <= j)%nat ->
          sample_tuples self !! i = Some a -> sample_tuples self !! j = Some b ->
          sample_ind_of a <= sample_ind_of b)
      /\ (forall i a b,
          sample_tuples self !! i = Some a -> sample_tuples self !! S i = Some b ->
          sample_ind_of b = sample_ind_of a \/ sample_ind_of b = sample_ind_of a + 1)
      /\ (forall i a, sample_tuples self !! i = Some a ->
          0 <= sample_ind_of a <= num_samples self - 1)
      /\ (forall a, last (sample_tuples self) = Some a ->
          sample_ind_of a = num_samples self - 1)
      /\ (forall k, 1 <= k <= num_samples self - 1 ->
          exists i a, sample_tuples self !! i = Some a /\ sample_ind_of a = k)).
Proof.
  split; [| split].
  - intros self var_ind value. simpl. by repeat split.
  - intros self var_ind value. simpl. by repeat split.
  - intros calls. simpl. pose proof (after_calls_log_ok calls) as Hok.
    split; [| split; [| split; [| split]]].
    + intros i j a b. by apply log_ok_monotone with (1 := Hok).
    + intros i a b. by apply log_ok_adjacent with (1 := Hok).
    + intros i a. by apply log_ok_range with (1 := Hok).
    + intros a. by apply log_ok_last with (1 := Hok).
    + intros k. by apply log_ok_present with (1 := Hok).
Qed.

(** ** Appending by name (add_sample_by_name) *)

(** C10. When the name is not a key of [var_index_given_name] the call
    [add_sample_by_name] raises [KeyError] and the collection it leaves is
    the one it was given: the log, both counters and both dictionaries are
    unchanged.  On a collection built through the interface that is the case
    for every name that no [init_var] call carried. *)
Theorem add_sample_by_name_unregistered :
  (forall (self : MCMCSampleCollection) (var_name : string) (value : float)
          (same_sample_as_prev : bool),
      var_index_given_name self !! var_name = None ->
      add_sample_by_name var_name value same_sample_as_prev self
      = (Raise KeyError, self))
  /\ (forall (calls : list call) (var_name : string) (value : float)
             (same_sample_as_prev : bool),
      (forall v, ~ In (InitVar var_name v) calls) ->
      add_sample_by_name var_name value same_sample_as_prev (after_calls calls)
      = (Raise KeyError, after_calls calls)).
Proof.
  split.
  - intros self var_name value same. apply add_sample_by_name_unknown.
  - intros calls var_name value same Hnot.
    apply add_sample_by_name_unknown, never_registered_lookup, Hnot.
Qed.

Lemma add_sample_by_name_unregistered_witness :
  add_sample_by_name "y" 2.0%float false (after_calls [InitVar "x" 1.0%float])
  = (Raise KeyError, after_calls [InitVar "x" 1.0%float]).
Proof.
  apply (proj2 add_sample_by_name_unregistered [InitVar "x" 1.0%float] "y").
  intros v [Hin | []]. discriminate Hin.
Defined.

(** ** The locator (first_tuple_index_of_desired_sample_index) *)

Lemma non_decreasing_cons a l :
  non_decreasing (a :: l) = true ->
  non_decreasing l = true /\ (forall j b, l !! j = Some b -> a <= b).
Proof.
  revert a. induction l as [| b l IH]; intros a Hnd.
  - split; [done |]. intros j c Hj. by rewrite lookup_nil in Hj.
  - simpl in Hnd. apply andb_true_iff in Hnd as [Hab Hnd].
    apply bool_decide_eq_true in Hab. split; [exact Hnd |].
    destruct (IH _ Hnd) as [_ Hall].
    intros [| j] c Hj; simpl in Hj.
    + inversion Hj. by subst.
    + specialize (Hall _ _ Hj). lia.
Qed.

Lemma non_decreasing_monotone tuples :
  non_decreasing (sample_ind_of <$> tuples) = true -> monotone tuples.
Proof.
  induction tuples as [| t tuples IH]; intros Hnd i j a b Hij Hi Hj.
  - by rewrite lookup_nil in Hi.
  - rewrite fmap_cons in Hnd.
    apply non_decreasing_cons in Hnd as [Hnd Hall].
    destruct i as [| i], j as [| j]; simpl in Hi, Hj; try lia.
    + inversion Hi. inversion Hj. by subst.
    + inversion Hi. subst a. apply (Hall j).
      by rewrite list_lookup_fmap, Hj.
    + apply (IH Hnd i j); [lia | done | done].
Qed.

Lemma linear_scan_none (desired_sample_ind i : Z) (tuples : list sample_tuple) :
  linear_scan desired_sample_ind i tuples = None.
Proof.
  revert i. induction tuples as [| t rest IH]; intros i; [reflexivity |].
  simpl. apply IH.
Qed.

Lemma reference_scan_first (d i0 : Z) (tuples : list sample_tuple) (k : nat) t :
  tuples !! k = Some t -> sample_ind_of t = d ->
  (forall j t', (j < k)%nat -> tuples !! j = Some t' -> sample_ind_of t' <> d) ->
  reference_scan d i0 tuples = Some (i0 + Z.of_nat k).
Proof.
  revert i0 k. induction tuples as [| t0 rest IH]; intros i0 k Hk Ht Hfirst.
  - by rewrite lookup_nil in Hk.
  - simpl. destruct k as [| k]; simpl in Hk.
    + inversion Hk. subst t0. rewrite bool_decide_eq_true_2 by exact Ht.
      f_equal. lia.
    + rewrite bool_decide_eq_false_2 by (apply (Hfirst 0%nat); [lia | done]).
      rewrite (IH (i0 + 1) k Hk Ht).
      * f_equal. lia.
      * intros j t' Hj. apply (Hfirst (S j)). lia.
Qed.

Lemma list_getitem_Ok {A : Type} (l : list A) (i : Z) (x : A) :
  list_getitem l i = Ok x ->
  l !! Z.to_nat (if bool_decide (i < 0) then i + Z.of_nat (length l) else i) = Some x
  /\ 0 <= (if bool_decide (i < 0) then i + Z.of_nat (length l) else i) < Z.of_nat (length l).
Proof.
  unfold list_getitem. case_bool_decide as Hneg; case_bool_decide as Hr; try discriminate.
  all: destruct (l !! _) eqn:Hl; [| discriminate]; intros [= ->]; done.
Qed.

Lemma list_getitem_nonneg {A : Type} (l : list A) (i : Z) (x : A) :
  0 <= i -> l !! Z.to_nat i = Some x -> list_getitem l i = Ok x.
Proof.
  intros Hi Hl. unfold list_getitem.
  rewrite (bool_decide_eq_false_2 (i < 0)) by lia.
  apply lookup_lt_Some in Hl as Hlen.
  rewrite bool_decide_eq_true_2 by lia. by rewrite Hl.
Qed.

(** Whatever the log holds, an iteration that goes on has the assertion
    behind it, stays inside the old bounds and leaves a strictly shorter
    interval. *)
Lemma bsearch_body_next tuples d l u l' u' :
  bsearch_body tuples d l u = Next l' u' ->
  l' + 1 < u' /\ l <= l' /\ u' <= u /\ u' - l' < u - l.
Proof.
  unfold bsearch_body, check_bounds.
  destruct (list_getitem tuples _) as [before |]; [| discriminate].
  case_bool_decide.
  - case_bool_decide; [| discriminate]. intros [= <- <-].
    Z.div_mod_to_equations. lia.
  - destruct (list_getitem tuples _) as [here |]; [| discriminate].
    case_bool_decide; [| discriminate].
    case_bool_decide; [| discriminate]. intros [= <- <-].
    Z.div_mod_to_equations. lia.
Qed.

Lemma bsearch_body_return tuples d l u t :
  monotone tuples -> 0 <= l -> 0 <= u ->
  bsearch_body tuples d l u = Return t ->
  1 <= t /\ exists before here,
    tuples !! Z.to_nat (t - 1) = Some before /\ tuples !! Z.to_nat t = Some here
    /\ sample_ind_of before < d <= sample_ind_of here.
Proof.
  intros Hmono Hl Hu. unfold bsearch_body, check_bounds.
  assert (0 <= (u + l) `div` 2) as Htest by (Z.div_mod_to_equations; lia).
  destruct (list_getitem tuples ((u + l) `div` 2 - 1)) as [before |] eqn:Hb;
    [| discriminate].
  case_bool_decide as Hge; [case_bool_decide; discriminate |].
  destruct (list_getitem tuples ((u + l) `div` 2)) as [here |] eqn:Hh; [| discriminate].
  case_bool_decide as Hlt; [case_bool_decide; discriminate |].
  intros [= <-].
  apply list_getitem_Ok in Hb as [Hb Hbr], Hh as [Hh Hhr].
  rewrite (bool_decide_eq_false_2 ((u + l) `div` 2 < 0)) in Hh, Hhr by lia.
  destruct (decide ((u + l) `div` 2 = 0)) as [H0 | Hn0].
  - rewrite H0 in *. rewrite bool_decide_eq_true_2 in Hb by lia.
    pose proof (Hmono _ _ _ _ (Nat.le_0_l _) Hh Hb). lia.
  - rewrite bool_decide_eq_false_2 in Hb by lia.
    split; [lia |]. exists before, here. repeat split; [done | done | lia | lia].
Qed.

Lemma bsearch_loop_more_fuel fuel extra tuples d l u r :
  bsearch_loop fuel tuples d l u = Some r ->
  bsearch_loop (fuel + extra) tuples d l u = Some r.
Proof.
  revert l u. induction fuel as [| fuel IH]; intros l u; simpl; [discriminate |].
  destruct (bsearch_body tuples d l u); auto.
Qed.

Lemma bsearch_loop_total fuel tuples d l u :
  (0 < fuel)%nat -> u - l < Z.of_nat fuel ->
  exists r, bsearch_loop fuel tuples d l u = Some r.
Proof.
  revert l u. induction fuel as [| fuel IH]; intros l u Hpos Hfuel; [lia |].
  simpl. destruct (bsearch_body tuples d l u) as [t | e | l' u'] eqn:Hbody; eauto.
  apply bsearch_body_next in Hbody. apply IH; lia.
Qed.

Lemma bsearch_loop_return fuel tuples d l u t :
  monotone tuples -> 0 <= l -> 0 <= u ->
  bsearch_loop fuel tuples d l u = Some (Ok t) ->
  1 <= t /\ exists before here,
    tuples !! Z.to_nat (t - 1) = Some before /\ tuples !! Z.to_nat t = Some here
    /\ sample_ind_of before < d <= sample_ind_of here.
Proof.
  intros Hmono. revert l u. induction fuel as [| fuel IH]; intros l u Hl Hu;
    simpl; [discriminate |].
  destruct (bsearch_body tuples d l u) as [t' | e | l' u'] eqn:Hbody.
  - intros [= <-]. exact (bsearch_body_return _ _ _ _ _ Hmono Hl Hu Hbody).
  - discriminate.
  - apply bsearch_body_next in Hbody. apply IH; lia.
Qed.

(** On a log in non-decreasing order that holds the requested index, but not
    in its first record, the loop started on bounds that enclose the first
    record of that index returns its position. *)
Lemma bsearch_loop_finds fuel tuples d l u (p : nat) t :
  monotone tuples ->
  tuples !! p = Some t -> sample_ind_of t = d ->
  (forall j t', (j < p)%nat -> tuples !! j = Some t' -> sample_ind_of t' < d) ->
  0 <= l < Z.of_nat p -> Z.of_nat p < u <= Z.of_nat (length tuples) ->
  u - l < Z.of_nat fuel ->
  bsearch_loop fuel tuples d l u = Some (Ok (Z.of_nat p)).
Proof.
  intros Hmono Hp Ht Hfirst. revert l u.
  induction fuel as [| fuel IH]; intros l u Hl Hu Hfuel; [lia |].
  simpl. unfold bsearch_body, check_bounds.
  set (test_ind := (u + l) `div` 2).
  assert (l < test_ind < u) as Htest
    by (unfold test_ind; Z.div_mod_to_equations; lia).
  assert (Z.to_nat (test_ind - 1) < length tuples)%nat as Hb by lia.
  assert (Z.to_nat test_ind < length tuples)%nat as Hh by lia.
  apply lookup_lt_is_Some_2 in Hb as [before Hb], Hh as [here Hh].
  rewrite (list_getitem_nonneg tuples (test_ind - 1) before) by (lia || done).
  rewrite (list_getitem_nonneg tuples test_ind here) by (lia || done).
  case_bool_decide as Hge.
  - (* the record before the midpoint has reached the target *)
    assert (Z.of_nat p < test_ind) as Hlt.
    { destruct (decide (Z.of_nat p < test_ind)) as [| Hn]; [done |].
      assert (Z.to_nat (test_ind - 1) < p)%nat as Hj by lia.
      pose proof (Hfirst _ _ Hj Hb). lia. }
    rewrite bool_decide_eq_true_2 by lia. apply IH; lia.
  - case_bool_decide as Hlow.
    + (* the record at the midpoint is still below the target *)
      assert (test_ind < Z.of_nat p) as Hlt.
      { destruct (decide (test_ind < Z.of_nat p)) as [| Hn]; [done |].
        pose proof (Hmono p (Z.to_nat test_ind) _ _ ltac:(lia) Hp Hh). lia. }
      rewrite bool_decide_eq_true_2 by lia. apply IH; lia.
    + (* the midpoint is the first record of the target *)
      do 2 f_equal.
      destruct (Z.lt_trichotomy test_ind (Z.of_nat p)) as [Hlt | [Heq | Hgt]];
        [| done |].
      * assert (Z.to_nat test_ind < p)%nat as Hj by lia.
        pose proof (Hfirst _ _ Hj Hh). lia.
      * pose proof (Hmono p (Z.to_nat (test_ind - 1)) _ _ ltac:(lia) Hp Hb). lia.
Qed.

Lemma reference_scan_Some (d i0 : Z) (tuples : list sample_tuple) (q : Z) :
  reference_scan d i0 tuples = Some q ->
  exists (k : nat) t, q = i0 + Z.of_nat k /\ tuples !! k = Some t /\ sample_ind_of t = d
    /\ (forall j t', (j < k)%nat -> tuples !! j = Some t' -> sample_ind_of t' <> d).
Proof.
  revert i0. induction tuples as [| t0 rest IH]; intros i0; simpl; [discriminate |].
  case_bool_decide as Ht0.
  - intros [= <-]. exists 0%nat, t0. repeat split; [lia | done | lia].
  - intros Hq. destruct (IH _ Hq) as (k & t & -> & Hk & Ht & Hfirst).
    exists (S k), t. repeat split; [lia | done | done |].
    intros [| j] t' Hj Hl; simpl in Hl.
    + by inversion Hl; subst.
    + apply (Hfirst j); [lia | done].
Qed.

Lemma reference_scan_None (d i0 : Z) (tuples : list sample_tuple) :
  reference_scan d i0 tuples = None ->
  forall k t, tuples !! k = Some t -> sample_ind_of t <> d.
Proof.
  revert i0. induction tuples as [| t0 rest IH]; intros i0; simpl.
  - intros _ k t Hk. by rewrite lookup_nil in Hk.
  - case_bool_decide as Ht0; [discriminate |].
    intros Hnone [| k] t Hk; simpl in Hk.
    + by inversion Hk; subst.
    + by apply (IH _ Hnone k).
Qed.

Lemma log_ok_nil n : log_ok n [] -> n = 1.
Proof.
  inversion 1 as [| ? l ? ? ? Hl | ? l ? ? ? Hl]; [done | |]; by destruct l.
Qed.

Lemma log_ok_first n l t : log_ok n l -> l !! 0%nat = Some t -> sample_ind_of t <= 1.
Proof.
  induction 1 as [| n l v x Hok IH | n l v x Hok IH]; intros H0.
  - by rewrite lookup_nil in H0.
  - destruct l as [| t0 l]; [| by apply IH].
    apply log_ok_nil in Hok. inversion H0. unfold sample_ind_of. simpl. lia.
  - destruct l as [| t0 l]; [| by apply IH].
    apply log_ok_nil in Hok. inversion H0. unfold sample_ind_of. simpl. lia.
Qed.

(** X8. Requests up to 10 take the linear scan, which compares whole records with
    the requested integer and so never finds one. *)
Lemma linear_branch_never_finds (self : MCMCSampleCollection) (d : Z) :
  d <= num_samples self - 1 -> d <= 10 ->
  first_tuple_index_of_desired_sample_index self d
  = Some (Raise (SystemExit (CannotFindSampleIndex d (num_samples self)))).
Proof.
  intros Hvalid Hsmall. unfold first_tuple_index_of_desired_sample_index.
  rewrite (bool_decide_eq_true_2 _ Hvalid), (bool_decide_eq_true_2 _ Hsmall).
  simpl. by rewrite linear_scan_none.
Qed.

(** X9. Requests beyond 10 take the binary search, which on every collection
    built through the interface returns what the reference scan returns. *)
Lemma binary_branch_agrees_with_reference_scan (calls : list call) (d : Z) :
  10 < d <= num_samples (after_calls calls) - 1 ->
  exists p,
    reference_scan d 0 (sample_tuples (after_calls calls)) = Some p
    /\ first_tuple_index_of_desired_sample_index (after_calls calls) d = Some (Ok p).
Proof.
  intros Hd. pose proof (after_calls_log_ok calls) as Hok.
  set (self := after_calls calls) in *.
  destruct (log_ok_present _ _ d Hok ltac:(lia)) as (i & ti & Hi & Hti).
  destruct (reference_scan d 0 (sample_tuples self)) as [q |] eqn:Href.
  2: { by destruct (reference_scan_None _ _ _ Href _ _ Hi). }
  destruct (reference_scan_Some _ _ _ _ Href) as (k & t & -> & Hk & Ht & Hfirst).
  exists (0 + Z.of_nat k). split; [done |].
  unfold first_tuple_index_of_desired_sample_index.
  rewrite bool_decide_eq_true_2 by lia. rewrite bool_decide_eq_false_2 by lia.
  cbn [negb].
  assert (monotone (sample_tuples self)) as Hmono
    by (intros ? ? ? ?; by apply log_ok_monotone with (1 := Hok)).
  apply lookup_lt_Some in Hk as Hlen.
  assert (k <> 0%nat) as Hk0.
  { intros ->. pose proof (log_ok_first _ _ _ Hok Hk). lia. }
  rewrite Z.add_0_l.
  apply (bsearch_loop_finds _ _ _ _ _ k t Hmono Hk Ht); [| lia | lia | lia].
  intros j t' Hj Hl. pose proof (Hmono j k _ _ ltac:(lia) Hl Hk).
  pose proof (Hfirst _ _ Hj Hl). lia.
Qed.

(** C8. When the requested index is not less than [num_samples] the call
    raises [AssertionError]; the outcome is the same whatever the log holds,
    so no record is looked at. *)
Theorem locate_out_of_range (self : MCMCSampleCollection) (desired_sample_ind : Z) :
  num_samples self <= desired_sample_ind ->
  first_tuple_index_of_desired_sample_index self desired_sample_ind
  = Some (Raise AssertionError)
  /\ (forall tuples,
        first_tuple_index_of_desired_sample_index (set_sample_tuples tuples self)
          desired_sample_ind
        = Some (Raise AssertionError)).
Proof.
  intros Hout. unfold first_tuple_index_of_desired_sample_index. split.
  - by rewrite bool_decide_eq_false_2 by lia.
  - intros tuples. simpl. by rewrite bool_decide_eq_false_2 by lia.
Qed.

Lemma locate_out_of_range_witness :
  num_samples (after_calls scenario) = 3
  /\ first_tuple_index_of_desired_sample_index (after_calls scenario) 5
     = Some (Raise AssertionError).
Proof.
  split; [reflexivity |].
  apply (locate_out_of_range (after_calls scenario) 5). vm_compute. discriminate.
Defined.

(** C9. On a log in non-decreasing order, for a valid request beyond 10:
    an iteration of the search that goes on has [lower_bound + 1 <
    upper_bound], stays inside the old bounds and leaves a strictly shorter
    interval; bounds that would break the assertion end the call with
    [AssertionError] in the same iteration; the loop ends, with one outcome
    for every sufficient number of iterations; and a position it returns is
    that of the first record whose sample index is at least the requested
    one (hence that of the first record with the requested index when the
    log holds it). *)
Theorem binary_search_terminates (self : MCMCSampleCollection) (desired_sample_ind : Z) :
  non_decreasing (sample_ind_of <$> sample_tuples self) = true ->
  10 < desired_sample_ind ->
  desired_sample_ind <= num_samples self - 1 ->
  let tuples := sample_tuples self in
  let d := desired_sample_ind in
  (forall l u l' u',
      bsearch_body tuples d l u = Next l' u' ->
      l' + 1 < u' /\ l <= l' /\ u' <= u /\ u' - l' < u - l)
  /\ (forall l u before,
      list_getitem tuples ((u + l) `div` 2 - 1) = Ok before ->
      sample_ind_of before >= d ->
      ~ l + 1 < (u + l) `div` 2 ->
      bsearch_body tuples d l u = Fail AssertionError)
  /\ (forall l u before here,
      list_getitem tuples ((u + l) `div` 2 - 1) = Ok before ->
      ~ sample_ind_of before >= d ->
      list_getitem tuples ((u + l) `div` 2) = Ok here ->
      sample_ind_of here < d ->
      ~ (u + l) `div` 2 + 1 < u ->
      bsearch_body tuples d l u = Fail AssertionError)
  /\ (exists r,
      first_tuple_index_of_desired_sample_index self d = Some r
      /\ forall fuel, (length tuples < fuel)%nat ->
           bsearch_loop fuel tuples d 0 (Z.of_nat (length tuples)) = Some r)
  /\ (forall p,
      first_tuple_index_of_desired_sample_index self d = Some (Ok p) ->
      1 <= p
      /\ (exists here, tuples !! Z.to_nat p = Some here /\ d <= sample_ind_of here)
      /\ (forall j t, (j < Z.to_nat p)%nat -> tuples !! j = Some t ->
            sample_ind_of t < d)
      /\ (forall k t, tuples !! k = Some t -> sample_ind_of t = d ->
            reference_scan d 0 tuples = Some p)).
Proof.
  intros Hsorted Hbig Hvalid tuples d.
  apply non_decreasing_monotone in Hsorted as Hmono. fold tuples in Hmono.
  assert (first_tuple_index_of_desired_sample_index self d
          = bsearch_loop (S (length tuples)) tuples d 0 (Z.of_nat (length tuples)))
    as Hbranch.
  { unfold first_tuple_index_of_desired_sample_index. subst d.
    rewrite bool_decide_eq_true_2 by lia. by rewrite bool_decide_eq_false_2 by lia. }
  split; [| split; [| split; [| split]]].
  - intros l u l' u'. apply bsearch_body_next.
  - intros l u before Hb Hge Hbad. unfold bsearch_body, check_bounds.
    rewrite Hb, (bool_decide_eq_true_2 _ Hge). by rewrite bool_decide_eq_false_2.
  - intros l u before here Hb Hge Hh Hlt Hbad. unfold bsearch_body, check_bounds.
    rewrite Hb, (bool_decide_eq_false_2 _ Hge), Hh, (bool_decide_eq_true_2 _ Hlt).
    by rewrite bool_decide_eq_false_2.
  - destruct (bsearch_loop_total (S (length tuples)) tuples d 0
                (Z.of_nat (length tuples)) ltac:(lia) ltac:(lia)) as [r Hr].
    exists r. split; [by rewrite Hbranch |].
    intros fuel Hfuel.
    replace fuel with (S (length tuples) + (fuel - S (length tuples)))%nat by lia.
    by apply bsearch_loop_more_fuel.
  - intros p Hp. rewrite Hbranch in Hp.
    apply bsearch_loop_return in Hp as (Hp1 & before & here & Hb & Hh & Hlt & Hge);
      [| done | lia | lia].
    assert (forall j t, (j < Z.to_nat p)%nat -> tuples !! j = Some t ->
              sample_ind_of t < d) as Hfirst.
    { intros j t Hj Ht.
      pose proof (Hmono j (Z.to_nat (p - 1)) _ _ ltac:(lia) Ht Hb). lia. }
    split; [done |]. split; [by exists here |]. split; [done |].
    intros k t Hk Ht.
    assert (Z.to_nat p <= k)%nat as Hpk.
    { destruct (decide (Z.to_nat p <= k)%nat) as [| Hn]; [done |].
      pose proof (Hfirst k t ltac:(lia) Hk). lia. }
    pose proof (Hmono _ _ _ _ Hpk Hh Hk).
    rewrite (reference_scan_first d 0 tuples (Z.to_nat p) here Hh ltac:(lia)).
    + f_equal. lia.
    + intros j t' Hj Hl. pose proof (Hfirst _ _ Hj Hl). lia.
Qed.

Lemma binary_search_terminates_witness :
  first_tuple_index_of_desired_sample_index (after_calls twelve_samples) 11
  = Some (Ok 11)
  /\ reference_scan 11 0 (sample_tuples (after_calls twelve_samples)) = Some 11.
Proof.
  assert (first_tuple_index_of_desired_sample_index (after_calls twelve_samples) 11
          = Some (Ok 11)) as Hcall by (vm_compute; reflexivity).
  split; [exact Hcall |].
  destruct (binary_search_terminates (after_calls twelve_samples) 11)
    as (_ & _ & _ & _ & Hpos).
  - vm_compute. reflexivity.
  - lia.
  - vm_compute. discriminate.
  - destruct (Hpos 11 Hcall) as (_ & _ & _ & Hscan).
    apply (Hscan 11%nat (11, 0, 2.0%float)); reflexivity.
Defined.

(** C2. After the calls of [scenario] the log holds the records of sample 1
    from position 2 on, which is what the reference scan returns for the
    request 1; the locator takes its linear branch, finds nothing and exits
    through [sys.exit]. *)
Theorem locate_small_index_exits :
  (sample_ind_of <$> sample_tuples (after_calls scenario)) = [0; 0; 1; 1; 2]
  /\ reference_scan 1 0 (sample_tuples (after_calls scenario)) = Some 2
  /\ first_tuple_index_of_desired_sample_index (after_calls scenario) 1
     = Some (Raise (SystemExit (CannotFindSampleIndex 1 3))).
Proof. repeat split. Qed.

(** ** The materializer (full_posterior_samples and the marginal methods) *)



Lemma list_index_not_In (l : list Z) (x : Z) : ~ In x l -> list_index l x = Raise ValueError.
Proof.
  induction l as [| y l IH]; intros Hx; simpl; [reflexivity |].
  rewrite bool_decide_eq_false_2 by (intros ->; apply Hx; by left).
  rewrite IH; [reflexivity |]. intros Hin. apply Hx. by right.
Qed.







(** [marginal_posterior_samples_by_name] hands no matrix to its caller and
    does not depend on the range it is given. *)
Lemma marginal_posterior_samples_by_name_returns_none (self : MCMCSampleCollection)
    (names : list string) (start_ind : Z) (end_ind : option Z) :
  (forall m, marginal_posterior_samples_by_name self names start_ind end_ind
             <> Ok (Some m))
  /\ marginal_posterior_samples_by_name self names start_ind end_ind
     = marginal_posterior_samples_by_name self names 0 None.
Proof.
  split; [| reflexivity].
  intros m. unfold marginal_posterior_samples_by_name.
  destruct (mapM _ names) as [inds |]; simpl; [| discriminate].
  destruct (marginal_posterior_samples_by_index _ _ _ _); simpl; discriminate.
Qed.

(** C1. After the calls of [scenario] (variables x = 1.0 and y = 2.0; sample
    1 writes x = 3.0 and y = 2.0; sample 2 writes x = 3.0 only, so that y has
    no record in sample 2) the call [full_posterior_samples(0, 3)], like the
    call with the default range, raises [AssertionError] at the first record
    of sample 1 and returns no matrix. *)
Theorem full_posterior_samples_scenario_raises :
  sample_tuples (after_calls scenario)
  = [(0, 0, 1.0%float); (0, 1, 2.0%float); (1, 0, 3.0%float); (1, 1, 2.0%float);
     (2, 0, 3.0%float)]
  /\ num_samples (after_calls scenario) = 3
  /\ full_posterior_samples (after_calls scenario) 0 (Some 3) = Raise AssertionError
  /\ full_posterior_samples (after_calls scenario) 0 None = Raise AssertionError.
Proof. repeat split. Qed.

(** C4. With x = 1.0 and y = 2.0 registered and no further sample opened,
    [full_posterior_samples()] returns the single row [0.0, 0.0]: the running
    vector of the last sample is never copied into the matrix.  Once a second
    sample is opened the call raises [AssertionError]. *)
Theorem full_posterior_samples_first_row_zero :
  full_posterior_samples (after_calls two_variables) 0 None
  = Ok [[0.0%float; 0.0%float]]
  /\ full_posterior_samples
       (after_calls (two_variables ++ [AddSampleByIndex 0 3.0%float false])) 0 None
     = Raise AssertionError.
Proof. repeat split. Qed.

(** C3. With x and y registered, the marginal over the variable indices [0]
    raises [ValueError] at the record of y ([list.index] does not find its
    variable index), while the full reconstruction over the same range
    returns a matrix. *)
Theorem marginal_posterior_samples_by_index_unrequested_raises :
  marginal_posterior_samples_by_index (after_calls two_variables) [0] 0 (Some 1)
  = Raise ValueError
  /\ full_posterior_samples (after_calls two_variables) 0 (Some 1)
     = Ok [[0.0%float; 0.0%float]].
Proof. repeat split. Qed.

(** C7. With x registered, the marginal by name over ["x"] and the range
    (0, 1) evaluates to [None], while the marginal by index over the resolved
    indices [0] and the same range returns a matrix. *)
Theorem marginal_posterior_samples_by_name_no_matrix :
  var_index_given_name (after_calls [InitVar "x" 1.0%float]) !! "x" = Some 0
  /\ marginal_posterior_samples_by_name (after_calls [InitVar "x" 1.0%float])
       ["x"] 0 (Some 1)
     = Ok None
  /\ marginal_posterior_samples_by_index (after_calls [InitVar "x" 1.0%float])
       [0] 0 (Some 1)
     = Ok [[0.0%float]].
Proof. repeat split. Qed.

(** * Further properties of the methods *)

(** ** What a mutating call can do *)

Lemma run_call_cases (c : call) (self : MCMCSampleCollection) :
  (exists e, run_call c self = (Raise e, self)
             /\ (e = SystemExit InitAfterSamplingBegun \/ e = KeyError))
  \/ (exists var_ind value,
        run_call c self
        = (Ok tt, mkCollection (num_vars self) (var_index_given_name self)
                    (var_name_given_index self) (num_samples self)
                    (sample_tuples self ++ [(num_samples self - 1, var_ind, value)])))
  \/ (exists var_ind value,
        run_call c self
        = (Ok tt, mkCollection (num_vars self) (var_index_given_name self)
                    (var_name_given_index self) (num_samples self + 1)
                    (sample_tuples self ++ [(num_samples self, var_ind, value)])))
  \/ (exists var_name value,
        num_samples self <= 1
        /\ run_call c self
           = (Ok tt, mkCollection (num_vars self + 1)
                       (<[var_name := num_vars self]> (var_index_given_name self))
                       (<[num_vars self := var_name]> (var_name_given_index self))
                       (num_samples self)
                       (sample_tuples self
                        ++ [(num_samples self - 1, num_vars self, value)]))).
Proof.
  assert (forall i v b,
    (exists var_ind value,
        add_sample_by_index i v b self
        = (Ok tt, mkCollection (num_vars self) (var_index_given_name self)
                    (var_name_given_index self) (num_samples self)
                    (sample_tuples self ++ [(num_samples self - 1, var_ind, value)])))
    \/ (exists var_ind value,
        add_sample_by_index i v b self
        = (Ok tt, mkCollection (num_vars self) (var_index_given_name self)
                    (var_name_given_index self) (num_samples self + 1)
                    (sample_tuples self ++ [(num_samples self, var_ind, value)]))))
    as Hadd.
  { intros i v [].
    - left. exists i, v. apply add_sample_by_index_continue.
    - right. exists i, v. rewrite add_sample_by_index_new.
      by replace (num_samples self + 1 - 1) with (num_samples self) by lia. }
  destruct c as [name v | i v same | name v same]; simpl.
  - destruct (Z_le_gt_dec (num_samples self) 1) as [Hle | Hgt].
    + do 3 right. exists name, v. split; [done |]. by apply init_var_open.
    + left. eexists. split; [by apply init_var_closed | by left].
  - destruct (Hadd i v same) as [H | H]; [right; left | right; right; left]; exact H.
  - destruct (var_index_given_name self !! name) as [i |] eqn:Hk.
    + rewrite (add_sample_by_name_known _ i) by exact Hk.
      destruct (Hadd i v same) as [H | H]; [right; left | right; right; left]; exact H.
    + left. eexists. split; [by apply add_sample_by_name_unknown | by right].
Qed.

(** X1. Every call of [init_var], [add_sample_by_index] or [add_sample_by_name]
    either raises (the exit of a closed registration, or [KeyError]) and
    leaves the collection exactly as it was, or returns and appends exactly
    one record, which carries the sample index [num_samples - 1] of the
    collection it leaves. *)
Theorem mutating_call_appends_one_or_nothing (c : call) (self : MCMCSampleCollection) :
  match (run_call c self).1 with
  | Raise e =>
      (run_call c self).2 = self
      /\ (e = SystemExit InitAfterSamplingBegun \/ e = KeyError)
  | Ok _ =>
      exists t,
        sample_tuples (run_call c self).2 = sample_tuples self ++ [t]
        /\ sample_ind_of t = num_samples (run_call c self).2 - 1
  end.
Proof.
  destruct (run_call_cases c self)
    as [(e & -> & He) | [(i & v & ->) | [(i & v & ->) | (name & v & _ & ->)]]];
    simpl; [done | | |]; eexists; (split; [reflexivity |]);
    unfold sample_ind_of; simpl; lia.
Qed.

Lemma run_call_grows (c : call) (self : MCMCSampleCollection) :
  registry_ok self ->
  sample_tuples self `prefix_of` sample_tuples (run_call c self).2
  /\ num_samples self <= num_samples (run_call c self).2
  /\ num_vars self <= num_vars (run_call c self).2
  /\ (forall i name, var_name_given_index self !! i = Some name ->
        var_name_given_index (run_call c self).2 !! i = Some name).
Proof.
  intros (Hn & Hdom & _).
  destruct (run_call_cases c self)
    as [(e & -> & He) | [(i & v & ->) | [(i & v & ->) | (name & v & _ & ->)]]];
    simpl.
  - done.
  - repeat split; [by apply prefix_app_r | lia | lia | done].
  - repeat split; [by apply prefix_app_r | lia | lia | done].
  - repeat split; [by apply prefix_app_r | lia | lia |].
    intros i name' Hi. rewrite lookup_insert_ne; [done |].
    intros <-. assert (is_Some (var_name_given_index self !! num_vars self)) as Hs
      by eauto. apply Hdom in Hs. lia.
Qed.

(** X2. The log is append-only and the counters never go down: whatever calls
    follow, the log so far stays a prefix of the log, [num_samples] and
    [num_vars] do not decrease, and an index keeps the name it was given. *)
Theorem after_calls_append_only (calls more : list call) :
  sample_tuples (after_calls calls) `prefix_of` sample_tuples (after_calls (calls ++ more))
  /\ num_samples (after_calls calls) <= num_samples (after_calls (calls ++ more))
  /\ num_vars (after_calls calls) <= num_vars (after_calls (calls ++ more))
  /\ (forall i name,
        var_name_given_index (after_calls calls) !! i = Some name ->
        var_name_given_index (after_calls (calls ++ more)) !! i = Some name).
Proof.
  induction more as [| c more IH] using rev_ind.
  - rewrite app_nil_r. done.
  - rewrite app_assoc, after_calls_snoc.
    destruct IH as (Hlog & Hs & Hv & Hnames).
    destruct (run_call_grows c (after_calls (calls ++ more))
                (after_calls_registry_ok _)) as (Hlog' & Hs' & Hv' & Hnames').
    repeat split; [by etrans | lia | lia | eauto].
Qed.

(** X3. Once a sample beyond the first is opened the registry is frozen for
    good: after any further calls [num_samples] is still above 1, [num_vars]
    and both dictionaries are what they were, and every [init_var] exits. *)
Theorem registration_stays_closed (calls more : list call) :
  num_samples (after_calls calls) > 1 ->
  num_samples (after_calls (calls ++ more)) > 1
  /\ num_vars (after_calls (calls ++ more)) = num_vars (after_calls calls)
  /\ var_index_given_name (after_calls (calls ++ more))
     = var_index_given_name (after_calls calls)
  /\ var_name_given_index (after_calls (calls ++ more))
     = var_name_given_index (after_calls calls)
  /\ (forall var_name value,
        init_var var_name value (after_calls (calls ++ more))
        = (Raise (SystemExit InitAfterSamplingBegun), after_calls (calls ++ more))).
Proof.
  intros Hclosed.
  assert (num_samples (after_calls (calls ++ more)) > 1
          /\ num_vars (after_calls (calls ++ more)) = num_vars (after_calls calls)
          /\ var_index_given_name (after_calls (calls ++ more))
             = var_index_given_name (after_calls calls)
          /\ var_name_given_index (after_calls (calls ++ more))
             = var_name_given_index (after_calls calls)) as Hfrozen.
  { induction more as [| c more IH] using rev_ind.
    - rewrite app_nil_r. done.
    - rewrite app_assoc, after_calls_snoc.
      destruct IH as (Hs & Hv & Hi & Hn).
      destruct (run_call_cases c (after_calls (calls ++ more)))
        as [(e & -> & He) | [(i & v & ->) | [(i & v & ->) | (name & v & Hopen & _)]]];
        simpl; [done | done | | lia].
      repeat split; [lia | done | done | done]. }
  destruct Hfrozen as (Hs & Hv & Hi & Hn). repeat split; try done.
  intros var_name value. by apply init_var_closed.
Qed.

Lemma registration_stays_closed_witness :
  init_var "z" 5.0%float
    (after_calls (scenario ++ [AddSampleByIndex 1 4.0%float true]))
  = (Raise (SystemExit InitAfterSamplingBegun),
     after_calls (scenario ++ [AddSampleByIndex 1 4.0%float true])).
Proof.
  destruct (registration_stays_closed scenario [AddSampleByIndex 1 4.0%float true])
    as (_ & _ & _ & _ & Hexit).
  - vm_compute. reflexivity.
  - apply Hexit.
Defined.

(** ** The two dictionaries *)

(** X4. On a collection built through the interface, a registered name has an
    index below [num_vars], that index leads back to the name, and appending
    by that name is appending by that index. *)
Theorem registered_name_round_trip (calls : list call) (var_name : string) (i : Z) :
  var_index_given_name (after_calls calls) !! var_name = Some i ->
  0 <= i < num_vars (after_calls calls)
  /\ var_name_given_index (after_calls calls) !! i = Some var_name
  /\ (forall value same,
        add_sample_by_name var_name value same (after_calls calls)
        = add_sample_by_index i value same (after_calls calls)).
Proof.
  intros Hi. destruct (after_calls_registry_ok calls) as (_ & Hdom & Hback).
  pose proof (Hback _ _ Hi) as Hname.
  split; [apply Hdom; eauto |]. split; [done |].
  intros value same. by apply add_sample_by_name_known.
Qed.

Lemma registered_name_round_trip_witness :
  var_name_given_index (after_calls two_variables) !! 1 = Some "y".
Proof.
  apply (registered_name_round_trip two_variables "y" 1). reflexivity.
Defined.

(** X5. Registering a name a second time is not refused: the name moves to the
    fresh index [num_vars], while its old index still carries the name, so
    two indices then share one name and the old index no longer leads back
    to itself through the name. *)
Theorem init_var_duplicate_name (calls : list call) (var_name : string) (i : Z)
    (value : float) :
  var_index_given_name (after_calls calls) !! var_name = Some i ->
  num_samples (after_calls calls) <= 1 ->
  let self := after_calls calls in
  let self' := (init_var var_name value self).2 in
  (init_var var_name value self).1 = Ok tt
  /\ var_index_given_name self' !! var_name = Some (num_vars self)
  /\ num_vars self <> i
  /\ var_name_given_index self' !! i = Some var_name
  /\ var_name_given_index self' !! num_vars self = Some var_name
  /\ num_vars self' = num_vars self + 1.
Proof.
  intros Hi Hopen self self'. subst self'.
  destruct (after_calls_registry_ok calls) as (_ & Hdom & Hback). fold self in Hdom, Hback.
  assert (0 <= i < num_vars self) as Hrange by (apply Hdom; eauto).
  rewrite init_var_open by exact Hopen. simpl.
  repeat split; [apply lookup_insert_eq | lia | | apply lookup_insert_eq].
  rewrite lookup_insert_ne by lia. by apply Hback.
Qed.

Lemma init_var_duplicate_name_witness :
  var_index_given_name (init_var "x" 9.0%float (after_calls two_variables)).2 !! "x"
  = Some 2
  /\ var_name_given_index (init_var "x" 9.0%float (after_calls two_variables)).2 !! 0
     = Some "x".
Proof.
  destruct (init_var_duplicate_name two_variables "x" 0 9.0%float)
    as (_ & Hnew & _ & Hold & _).
  - reflexivity.
  - vm_compute. discriminate.
  - split; [exact Hnew | exact Hold].
Defined.

Lemma run_call_sizes (c : call) (self : MCMCSampleCollection) :
  registry_ok self ->
  size (var_name_given_index self) = Z.to_nat (num_vars self) ->
  (size (var_index_given_name self) <= Z.to_nat (num_vars self))%nat ->
  size (var_name_given_index (run_call c self).2) = Z.to_nat (num_vars (run_call c self).2)
  /\ (size (var_index_given_name (run_call c self).2)
      <= Z.to_nat (num_vars (run_call c self).2))%nat.
Proof.
  intros (Hn & Hdom & _) Hsize Hle.
  destruct (run_call_cases c self)
    as [(e & -> & He) | [(i & v & ->) | [(i & v & ->) | (name & v & _ & ->)]]];
    simpl; [done | done | done |].
  assert (var_name_given_index self !! num_vars self = None) as Hfresh.
  { apply eq_None_not_Some. rewrite Hdom. lia. }
  rewrite map_size_insert_None by exact Hfresh. rewrite map_size_insert.
  split; [rewrite Hsize; lia |].
  destruct (var_index_given_name self !! name); simpl; lia.
Qed.

(** X6. [num_vars] is the number of indices that carry a name; the number of
    names that carry an index is at most that (it is less once a name was
    registered twice). *)
Theorem num_vars_counts_indices (calls : list call) :
  size (var_name_given_index (after_calls calls))
  = Z.to_nat (num_vars (after_calls calls))
  /\ 0 <= num_vars (after_calls calls)
  /\ (size (var_index_given_name (after_calls calls))
      <= Z.to_nat (num_vars (after_calls calls)))%nat.
Proof.
  assert (size (var_name_given_index (after_calls calls))
          = Z.to_nat (num_vars (after_calls calls))
          /\ (size (var_index_given_name (after_calls calls))
              <= Z.to_nat (num_vars (after_calls calls)))%nat) as [Hsize Hle].
  { induction calls as [| c calls IH] using rev_ind.
    - done.
    - rewrite after_calls_snoc. destruct IH as [Hsize Hle].
      by apply run_call_sizes; [apply after_calls_registry_ok | |]. }
  repeat split; [done | | done].
  by destruct (after_calls_registry_ok calls) as (Hn & _).
Qed.

(** X7. Every registered variable has its initial value in the log, in sample 0:
    on a collection built through the interface each index below [num_vars]
    has a record with sample index 0; so once a variable is registered every
    sample index from 0 to [num_samples - 1] has a record. *)
Theorem registered_variable_has_initial_record (calls : list call) :
  (forall j, 0 <= j < num_vars (after_calls calls) ->
     exists i value, sample_tuples (after_calls calls) !! i = Some (0, j, value))
  /\ (0 < num_vars (after_calls calls) ->
      forall k, 0 <= k <= num_samples (after_calls calls) - 1 ->
        exists i t, sample_tuples (after_calls calls) !! i = Some t
                    /\ sample_ind_of t = k).
Proof.
  assert (forall j, 0 <= j < num_vars (after_calls calls) ->
     exists i value, sample_tuples (after_calls calls) !! i = Some (0, j, value))
    as Hinit.
  { induction calls as [| c calls IH] using rev_ind.
    - simpl. intros j Hj. lia.
    - rewrite after_calls_snoc.
      pose proof (log_ok_counter _ _ (after_calls_log_ok calls)) as Hpos.
      destruct (run_call_cases c (after_calls calls))
        as [(e & -> & He) | [(i & v & ->) | [(i & v & ->) | (name & v & Hopen & ->)]]];
        simpl; [done | | |].
      + intros j Hj. destruct (IH j Hj) as (k & x & Hk).
        exists k, x. by apply lookup_app_l_Some.
      + intros j Hj. destruct (IH j Hj) as (k & x & Hk).
        exists k, x. by apply lookup_app_l_Some.
      + intros j Hj.
        destruct (decide (j = num_vars (after_calls calls))) as [-> | Hne].
        * exists (length (sample_tuples (after_calls calls))), v.
          replace 0 with (num_samples (after_calls calls) - 1) by lia.
          by apply list_lookup_middle.
        * destruct (IH j ltac:(lia)) as (k & x & Hk).
          exists k, x. by apply lookup_app_l_Some. }
  split; [exact Hinit |].
  intros Hreg k Hk. destruct (decide (k = 0)) as [-> | Hne].
  - destruct (Hinit 0 ltac:(lia)) as (i & value & Hi). by exists i, (0, 0, value).
  - apply (log_ok_present _ _ k (after_calls_log_ok calls)). lia.
Qed.

(** ** The locator on arbitrary logs *)

Lemma linear_branch_never_finds_witness :
  first_tuple_index_of_desired_sample_index (after_calls two_variables) 0
  = Some (Raise (SystemExit (CannotFindSampleIndex 0 1))).
Proof.
  apply (linear_branch_never_finds (after_calls two_variables) 0).
  - vm_compute. discriminate.
  - lia.
Defined.

Lemma binary_branch_agrees_with_reference_scan_witness :
  exists p,
    reference_scan 11 0 (sample_tuples (after_calls twelve_samples)) = Some p
    /\ first_tuple_index_of_desired_sample_index (after_calls twelve_samples) 11
       = Some (Ok p).
Proof.
  apply (binary_branch_agrees_with_reference_scan twelve_samples 11).
  split; [lia | vm_compute; discriminate].
Defined.

Lemma bsearch_body_return_in_range tuples d l u t :
  0 <= l -> 0 <= u ->
  bsearch_body tuples d l u = Return t ->
  0 <= t < Z.of_nat (length tuples)
  /\ exists here, tuples !! Z.to_nat t = Some here /\ d <= sample_ind_of here.
Proof.
  intros Hl Hu. unfold bsearch_body, check_bounds.
  assert (0 <= (u + l) `div` 2) as Htest by (Z.div_mod_to_equations; lia).
  destruct (list_getitem tuples ((u + l) `div` 2 - 1)) as [before |]; [| discriminate].
  case_bool_decide as Hge; [case_bool_decide; discriminate |].
  destruct (list_getitem tuples ((u + l) `div` 2)) as [here |] eqn:Hh; [| discriminate].
  case_bool_decide as Hlt; [case_bool_decide; discriminate |].
  intros [= <-]. apply list_getitem_Ok in Hh as [Hh Hhr].
  rewrite (bool_decide_eq_false_2 ((u + l) `div` 2 < 0)) in Hh, Hhr by lia.
  split; [lia |]. exists here. split; [done | lia].
Qed.

Lemma bsearch_loop_return_in_range fuel tuples d l u t :
  0 <= l -> 0 <= u ->
  bsearch_loop fuel tuples d l u = Some (Ok t) ->
  0 <= t < Z.of_nat (length tuples)
  /\ exists here, tuples !! Z.to_nat t = Some here /\ d <= sample_ind_of here.
Proof.
  revert l u. induction fuel as [| fuel IH]; intros l u Hl Hu; simpl; [discriminate |].
  destruct (bsearch_body tuples d l u) as [t' | e | l' u'] eqn:Hbody.
  - intros [= <-]. exact (bsearch_body_return_in_range _ _ _ _ _ Hl Hu Hbody).
  - discriminate.
  - apply bsearch_body_next in Hbody. apply IH; lia.
Qed.

(** X10. Whatever the collection holds (a log in any order, any counters) and
    whatever is requested, the locator ends: it has an outcome, which no
    larger bound on the iterations of the search changes.  A position it
    returns is only ever returned for a request above 10 and below
    [num_samples], is a position of the log, and holds a record whose sample
    index is at least the requested one. *)
Theorem locator_always_ends (self : MCMCSampleCollection) (desired_sample_ind : Z) :
  let tuples := sample_tuples self in
  (exists r, first_tuple_index_of_desired_sample_index self desired_sample_ind = Some r)
  /\ (forall fuel, (length tuples < fuel)%nat ->
        bsearch_loop fuel tuples desired_sample_ind 0 (Z.of_nat (length tuples))
        = bsearch_loop (S (length tuples)) tuples desired_sample_ind 0
            (Z.of_nat (length tuples)))
  /\ (forall p,
        first_tuple_index_of_desired_sample_index self desired_sample_ind = Some (Ok p) ->
        10 < desired_sample_ind <= num_samples self - 1
        /\ 0 <= p < Z.of_nat (length tuples)
        /\ exists here, tuples !! Z.to_nat p = Some here
                        /\ desired_sample_ind <= sample_ind_of here).
Proof.
  intros tuples.
  destruct (bsearch_loop_total (S (length tuples)) tuples desired_sample_ind 0
              (Z.of_nat (length tuples)) ltac:(lia) ltac:(lia)) as [r Hr].
  split; [| split].
  - unfold first_tuple_index_of_desired_sample_index. fold tuples.
    case_bool_decide; cbn [negb]; [| eauto].
    case_bool_decide; [| eauto].
    rewrite linear_scan_none. eauto.
  - intros fuel Hfuel. rewrite Hr.
    replace fuel with (S (length tuples) + (fuel - S (length tuples)))%nat by lia.
    by apply bsearch_loop_more_fuel.
  - intros p. unfold first_tuple_index_of_desired_sample_index. fold tuples.
    case_bool_decide; cbn [negb]; [| discriminate].
    case_bool_decide; [rewrite linear_scan_none; discriminate |].
    intros Hp. split; [lia |].
    apply bsearch_loop_return_in_range in Hp; [done | lia | lia].
Qed.

(** ** When the materializer returns *)




Lemma list_index_seqZ (len : nat) (m v : Z) :
  m <= v < m + Z.of_nat len -> list_index (seqZ m (Z.of_nat len)) v = Ok (v - m).
Proof.
  revert m. induction len as [| len IH]; intros m Hv; [lia |].
  rewrite seqZ_cons by lia. simpl. case_bool_decide as Hm.
  - f_equal. lia.
  - replace (Z.pred (Z.of_nat (S len))) with (Z.of_nat len) by lia.
    rewrite IH by lia. simpl. f_equal. lia.
Qed.







(** ** The marginal over every variable, and the marginal by name *)

Lemma marginal_loop_all_variables (nv : nat) start_ind end_ind tuples posterior
    current_sample_ind cur :
  Forall (fun t => 0 <= var_ind_of t < Z.of_nat nv) tuples ->
  marginal_posterior_samples_by_index_loop (seqZ 0 (Z.of_nat nv)) start_ind end_ind
    tuples posterior current_sample_ind cur
  = full_posterior_samples_loop start_ind end_ind tuples posterior
      current_sample_ind cur.
Proof.
  revert posterior current_sample_ind cur.
  induction tuples as [| [[s v] x] rest IH]; intros posterior ci cur Hall;
    [reflexivity |].
  inversion Hall as [| ? ? Hv Hrest]; subst. unfold var_ind_of in Hv. simpl in Hv.
  simpl. rewrite list_index_seqZ by lia. rewrite Z.sub_0_r. simpl.
  repeat case_bool_decide; try reflexivity.
  - destruct (np_setitem posterior _ _); simpl; [| reflexivity].
    destruct (np_setitem cur v x); simpl; [| reflexivity]. by apply IH.
  - destruct (np_setitem cur v x); simpl; [| reflexivity]. by apply IH.
  - destruct (np_setitem cur v x); simpl; [| reflexivity]. by apply IH.
Qed.

(** X13. Whatever the log holds, as long as every record's variable index lies in
    [0 .. num_vars - 1], the marginal over all the indices [0, 1, ...,
    num_vars - 1] in this order has the outcome of the full reconstruction
    over the same range: the same matrix or the same exception. *)
Theorem marginal_over_all_variables_is_full (self : MCMCSampleCollection)
    (start_ind : Z) (end_ind : option Z) :
  0 <= num_vars self ->
  Forall (fun t => 0 <= var_ind_of t < num_vars self) (sample_tuples self) ->
  marginal_posterior_samples_by_index self (seqZ 0 (num_vars self)) start_ind end_ind
  = full_posterior_samples self start_ind end_ind.
Proof.
  intros Hnv Hvars.
  unfold marginal_posterior_samples_by_index, full_posterior_samples.
  rewrite length_seqZ, Z2Nat.id by lia.
  destruct (np_zeros2 _) as [posterior |]; simpl; [| reflexivity].
  destruct (np_zeros1 _) as [cur |]; simpl; [| reflexivity].
  rewrite <- (Z2Nat.id (num_vars self)) at 1 by lia.
  apply marginal_loop_all_variables.
  eapply Forall_impl; [exact Hvars |]. intros t Ht. simpl in Ht. lia.
Qed.

Lemma marginal_over_all_variables_is_full_witness :
  marginal_posterior_samples_by_index (after_calls scenario) (seqZ 0 2) 0 (Some 3)
  = full_posterior_samples (after_calls scenario) 0 (Some 3).
Proof.
  apply (marginal_over_all_variables_is_full (after_calls scenario) 0 (Some 3)).
  - vm_compute. discriminate.
  - vm_compute. repeat constructor; discriminate.
Defined.

Lemma mapM_dict_getitem_unknown (d : gmap string Z) (names : list string)
    (name : string) :
  In name names -> d !! name = None -> mapM (dict_getitem d) names = Raise KeyError.
Proof.
  intros Hin Hnone. induction names as [| n names IH]; [destruct Hin |].
  cbn [mapM]. destruct (dict_getitem d n) as [i |] eqn:Hn; [| unfold dict_getitem in Hn].
  - destruct Hin as [-> | Hin].
    + unfold dict_getitem in Hn. rewrite Hnone in Hn. discriminate.
    + rewrite (IH Hin). reflexivity.
  - destruct (d !! n); [discriminate |]. by injection Hn as <-.
Qed.

Lemma mapM_dict_getitem_known (d : gmap string Z) (names : list string)
    (inds : list Z) :
  Forall2 (fun name i => d !! name = Some i) names inds ->
  mapM (dict_getitem d) names = Ok inds.
Proof.
  induction 1 as [| name i names inds Hi _ IH]; [reflexivity |].
  cbn [mapM]. rewrite IH. unfold dict_getitem. rewrite Hi. reflexivity.
Qed.

(** X14. [marginal_posterior_samples_by_name] raises [KeyError] as soon as one of
    the names is not registered, whatever the log holds.  When the names
    resolve to the indices [inds] it runs the marginal by index over [inds]
    and the whole range [0 .. num_samples], not the range it was given, and
    raises what that raises or else evaluates to [None].  It never hands a
    matrix to its caller. *)
Theorem marginal_posterior_samples_by_name_outcome (self : MCMCSampleCollection)
    (marg_var_names : list string) (start_ind : Z) (end_ind : option Z) :
  (forall name, In name marg_var_names -> var_index_given_name self !! name = None ->
     marginal_posterior_samples_by_name self marg_var_names start_ind end_ind
     = Raise KeyError)
  /\ (forall inds,
        Forall2 (fun name i => var_index_given_name self !! name = Some i)
          marg_var_names inds ->
        marginal_posterior_samples_by_name self marg_var_names start_ind end_ind
        = match marginal_posterior_samples_by_index self inds 0
                  (Some (num_samples self)) with
          | Ok _ => Ok None
          | Raise e => Raise e
          end)
  /\ (forall m,
        marginal_posterior_samples_by_name self marg_var_names start_ind end_ind
        <> Ok (Some m)).
Proof.
  split; [| split].
  - intros name Hin Hnone. unfold marginal_posterior_samples_by_name.
    by rewrite (mapM_dict_getitem_unknown _ _ _ Hin Hnone).
  - intros inds Hinds. unfold marginal_posterior_samples_by_name.
    rewrite (mapM_dict_getitem_known _ _ _ Hinds). simpl.
    by destruct (marginal_posterior_samples_by_index _ _ _ _).
  - intros m. unfold marginal_posterior_samples_by_name.
    destruct (mapM _ marg_var_names) as [inds |]; simpl; [| discriminate].
    destruct (marginal_posterior_samples_by_index _ _ _ _); simpl; discriminate.
Qed.
